(** * Blackjack: a shallow embedding of FinalGameProject.py

    The development follows the layout of the Python module: [Cards],
    [Deck], [Money], [Player] and [Game].  Python integers are modelled by
    [Z], Python lists by [list], the [side_bets] dictionary by a finite map
    with string keys.  Methods that mutate an object or raise are functions
    in a small state-and-exception monad; the state that survives a raised
    exception is the state at the point of the [raise]. *)

From Stdlib Require Import ZArith String Ascii.
From stdpp Require Import base list gmap strings.

Local Open Scope string_scope.
Local Open Scope Z_scope.

(** ** State and exceptions *)

(** The exceptions the program can meet: [ValueError] is raised by the
    module itself (and by the builtin [int]); [IndexError] is what
    [list.pop] raises on an empty list; [EOFError] is what [input] raises
    when standard input is exhausted. *)
Inductive exn : Type :=
| ValueError (msg : string)
| IndexError (msg : string)
| EOFError.

(** Outcome of running a method on a state of type [St].  [Diverge] is only
    produced by the fuelled loops, when the fuel runs out. *)
Inductive result (St A : Type) : Type :=
| Ret (a : A) (s : St)
| Raise (e : exn) (s : St)
| Diverge.
Arguments Ret {St A} a s.
Arguments Raise {St A} e s.
Arguments Diverge {St A}.

Definition M (St A : Type) : Type := St -> result St A.

Global Instance M_ret {St} : MRet (M St) := fun A a s => Ret a s.

Global Instance M_bind {St} : MBind (M St) := fun A B k m s =>
  match m s with
  | Ret a s' => k a s'
  | Raise e s' => Raise e s'
  | Diverge => Diverge
  end.

Definition raise {St A} (e : exn) : M St A := fun s => Raise e s.
Definition get {St} : M St St := fun s => Ret s s.
Definition modify {St} (f : St -> St) : M St unit := fun s => Ret tt (f s).

(** [try: body / except ValueError as e: handler e]. Other exceptions pass. *)
Definition try_except_ValueError {St A}
    (body : M St A) (handler : string -> M St A) : M St A :=
  fun s =>
    match body s with
    | Raise (ValueError msg) s' => handler msg s'
    | r => r
    end.

(** Run a method of a component object inside the object that owns it. *)
Definition zoom {St T A} (proj : St -> T) (upd : T -> St -> St)
    (m : M T A) : M St A :=
  fun s =>
    match m (proj s) with
    | Ret a t => Ret a (upd t s)
    | Raise e t => Raise e (upd t s)
    | Diverge => Diverge
    end.

(** ** Cards *)

(** [value] is an [int] for every rank but the Ace, whose value is the
    list [[1, 11]]. *)
Inductive value_t : Type :=
| VInt (n : Z)
| VList (l : list Z).

Record Cards : Type := mkCards {
  suit : string;
  rank : string;
  value : value_t;
}.

(** ** Deck *)

Definition suits : list string := ["Diamonds"; "Spades"; "Clubs"; "Hearts"].

Definition ranks : list (string * value_t) :=
  [("2", VInt 2); ("3", VInt 3); ("4", VInt 4); ("5", VInt 5);
   ("6", VInt 6); ("7", VInt 7); ("8", VInt 8); ("9", VInt 9);
   ("10", VInt 10); ("Jack", VInt 10); ("Queen", VInt 10);
   ("King", VInt 10); ("Ace", VList [1; 11])].

Record Deck : Type := mkDeck {
  cards : list Cards;
  original_cards : list Cards;
}.

(** [[Cards(suit, rank, value) for suit in suits for rank, value in ranks.items()]] *)
Definition _create_deck : list Cards :=
  s ← suits; '(r, v) ← ranks; [mkCards s r v].

Definition Deck_init : Deck :=
  {| cards := _create_deck; original_cards := _create_deck |}.

(** [list.pop()]: the last element and the list without it. *)
Fixpoint pop {A} (l : list A) : option (A * list A) :=
  match l with
  | [] => None
  | [x] => Some (x, [])
  | x :: l' => prod_map id (cons x) <$> pop l'
  end.

Definition dealcards : M Deck Cards :=
  fun d =>
    if bool_decide (length (cards d) = 0%nat)
    then Raise (ValueError "Deck is empty, cannot deal any more cards.") d
    else match pop (cards d) with
         | Some (c, rest) =>
             Ret c {| cards := rest; original_cards := original_cards d |}
         | None => Raise (IndexError "pop from empty list") d
         end.

(** ** Money *)

Record Money : Type := mkMoney { balance : Z }.

Definition bet_amount (amount : Z) : M Money Z :=
  fun m =>
    if bool_decide (amount > balance m)
    then Raise (ValueError "Not enough balance to place this bet!") m
    else Ret amount {| balance := balance m - amount |}.

Definition Money_win_bet (amount : Z) : M Money unit :=
  modify (fun m => {| balance := balance m + amount * 2 |}).

Definition Money_lose_bet : M Money unit := mret tt.

(** ** Player *)

Record Player : Type := mkPlayer {
  name : string;
  is_dealer : bool;
  money : Money;
  hand : list Cards;
  total : Z;
  current_bet : Z;
  insurance_bet : Z;
  side_bets : gmap string Z;
}.

Definition Player_init (nm : string) (dealer : bool) (bal : Z) : Player :=
  {| name := nm; is_dealer := dealer; money := mkMoney bal; hand := [];
     total := 0; current_bet := 0; insurance_bet := 0; side_bets := ∅ |}.

Definition set_money (m : Money) (p : Player) : Player :=
  {| name := name p; is_dealer := is_dealer p; money := m; hand := hand p;
     total := total p; current_bet := current_bet p;
     insurance_bet := insurance_bet p; side_bets := side_bets p |}.

Definition set_hand (h : list Cards) (p : Player) : Player :=
  {| name := name p; is_dealer := is_dealer p; money := money p; hand := h;
     total := total p; current_bet := current_bet p;
     insurance_bet := insurance_bet p; side_bets := side_bets p |}.

Definition set_total (t : Z) (p : Player) : Player :=
  {| name := name p; is_dealer := is_dealer p; money := money p;
     hand := hand p; total := t; current_bet := current_bet p;
     insurance_bet := insurance_bet p; side_bets := side_bets p |}.

Definition set_current_bet (b : Z) (p : Player) : Player :=
  {| name := name p; is_dealer := is_dealer p; money := money p;
     hand := hand p; total := total p; current_bet := b;
     insurance_bet := insurance_bet p; side_bets := side_bets p |}.

Definition set_side_bets (sb : gmap string Z) (p : Player) : Player :=
  {| name := name p; is_dealer := is_dealer p; money := money p;
     hand := hand p; total := total p; current_bet := current_bet p;
     insurance_bet := insurance_bet p; side_bets := sb |}.

(** [player.money.<method>(...)] *)
Definition in_money {A} (m : M Money A) : M Player A :=
  zoom money set_money m.

(** The [for card in self.hand] loop of [calculate_total]: one step on the
    pair of locals [(total, aces)]. *)
Definition count_card (acc : Z * nat) (card : Cards) : Z * nat :=
  match value card with
  | VList _ => (acc.1 + 11, S acc.2)
  | VInt n => (acc.1 + n, acc.2)
  end.

(** [while total > 21 and aces > 0: total -= 10; aces -= 1] *)
Fixpoint soften (tot : Z) (aces : nat) : Z :=
  match aces with
  | O => tot
  | S aces' => if bool_decide (tot > 21) then soften (tot - 10) aces' else tot
  end.

Definition hand_total (h : list Cards) : Z :=
  let acc := foldl count_card (0, 0%nat) h in
  soften acc.1 acc.2.

Definition calculate_total : M Player Z :=
  fun p => let t := hand_total (hand p) in Ret t (set_total t p).

Definition add_card (card : Cards) : M Player unit :=
  modify (fun p => set_hand (hand p ++ [card]) p);;
  calculate_total;;
  mret tt.

Definition place_bet (amount : Z) : M Player unit :=
  b ← in_money (bet_amount amount);
  modify (set_current_bet b).

Definition win_bet : M Player unit :=
  p ← get; in_money (Money_win_bet (current_bet p)).

Definition lose_bet : M Player unit := in_money Money_lose_bet.

(** ** The Python runtime the module relies on *)

(** [random.shuffle] and the builtin [int] belong to the interpreter, not
    to the module.  They are taken as an interface: [shuffle_list]
    rearranges a list using (and advancing) the state of the random
    generator, and all that is known about it is that the result is a
    rearrangement of its argument; [int] parses a string, [None] standing
    for the [ValueError] it raises on a malformed literal. *)
Class Runtime : Type := {
  RNG : Type;
  shuffle_list : RNG -> list Cards -> list Cards * RNG;
  shuffle_list_perm : forall r l, (shuffle_list r l).1 ≡ₚ l;
  int : string -> option Z;
}.

(** [str.lower()] on the ASCII letters.  The result is only ever compared
    with the ASCII literals ['d'], ['sp'], ['h'], ['s'] and ['y']; no
    character outside ASCII lowercases to one of their letters. *)
Definition lower_ascii (c : ascii) : ascii :=
  let n := nat_of_ascii c in
  if ((65 <=? n) && (n <=? 90))%nat then ascii_of_nat (n + 32) else c.

Fixpoint lower (s : string) : string :=
  match s with
  | EmptyString => EmptyString
  | String c s' => String (lower_ascii c) (lower s')
  end.

(** What [input] is asked to display. *)
Inductive Prompt : Type :=
| AskAction (nm : string)
| AskSideBet (kind : string)
| AskSideBetAmount (kind : string).

(** Lines written to standard output, one constructor per [print] of the
    module, carrying the values interpolated in its format string. *)
Inductive Msg : Type :=
| Prompted (p : Prompt)
| AddedDeck (n : nat)
| LowCardCount (n : nat)
| DealerVisible (visible : list Cards)
| ShowHand (nm : string) (h : list Cards) (t : Z)
| SideBetsOffer (nm : string)
| SideBetPlaced (nm kind : string) (amount : Z)
| ErrorText (msg : string)
| SideBetWon (nm kind : string)
| DoublesDown (nm : string)
| Splits (nm : string)
| Busted (nm : string)
| Stands (nm : string) (t : Z)
| InvalidInput
| PlayingHand (i : nat) (nm : string)
| HandBusted (i : nat) (nm : string)
| DealersTurn
| BustedDealerWins (nm : string)
| WinsAgainstDealer (nm : string)
| DealerWinsAgainst (nm : string)
| Ties (nm : string)
| AllPlayersOut.

Section Game.
Context `{Runtime}.

(** ** Game *)

(** The [Game] object together with the process state its methods act on:
    the generator of the [random] module, what is left of standard input,
    and what has been printed so far. *)
Record Game : Type := mkGame {
  deck : Deck;
  players : list Player;
  dealer : Player;
  rng : RNG;
  stdin : list string;
  stdout : list Msg;
}.

Definition set_deck (d : Deck) (g : Game) : Game :=
  {| deck := d; players := players g; dealer := dealer g; rng := rng g;
     stdin := stdin g; stdout := stdout g |}.

Definition set_players (ps : list Player) (g : Game) : Game :=
  {| deck := deck g; players := ps; dealer := dealer g; rng := rng g;
     stdin := stdin g; stdout := stdout g |}.

Definition set_dealer (p : Player) (g : Game) : Game :=
  {| deck := deck g; players := players g; dealer := p; rng := rng g;
     stdin := stdin g; stdout := stdout g |}.

Definition set_rng (r : RNG) (g : Game) : Game :=
  {| deck := deck g; players := players g; dealer := dealer g; rng := r;
     stdin := stdin g; stdout := stdout g |}.

Definition set_stdin (i : list string) (g : Game) : Game :=
  {| deck := deck g; players := players g; dealer := dealer g; rng := rng g;
     stdin := i; stdout := stdout g |}.

Definition set_stdout (o : list Msg) (g : Game) : Game :=
  {| deck := deck g; players := players g; dealer := dealer g; rng := rng g;
     stdin := stdin g; stdout := o |}.

Definition print (m : Msg) : M Game unit :=
  modify (fun g => set_stdout (stdout g ++ [m]) g).

Definition input (p : Prompt) : M Game string :=
  print (Prompted p);;
  g ← get;
  match stdin g with
  | [] => raise EOFError
  | line :: rest => modify (set_stdin rest);; mret line
  end.

(** [self.deck.<method>(...)] *)
Definition in_deck {A} (m : M Deck A) : M Game A := zoom deck set_deck m.

(** [Deck.shuffle]: [random.shuffle(self.cards)] *)
Definition shuffle_cards (g : Game) : Game :=
  let r := shuffle_list (rng g) (cards (deck g)) in
  set_rng r.2
    (set_deck {| cards := r.1; original_cards := original_cards (deck g) |} g).

Definition shuffle : M Game unit := modify shuffle_cards.

(** [Deck.add_additional_deck] *)
Definition add_additional_deck : M Game unit :=
  let additional_cards := _create_deck in
  in_deck (modify (fun d =>
    {| cards := cards d ++ additional_cards;
       original_cards := original_cards d |}));;
  in_deck (modify (fun d =>
    {| cards := cards d;
       original_cards := original_cards d ++ additional_cards |}));;
  g ← get;
  print (AddedDeck (length (cards (deck g))));;
  shuffle.

(** [Game.__init__], for a generator state and an input to run on. *)
Definition Game_init (r : RNG) (i : list string) : Game :=
  shuffle_cards
    {| deck := Deck_init; players := [];
       dealer := Player_init "Dealer" true 10000;
       rng := r; stdin := i; stdout := [] |}.

Definition check_deck_size : M Game unit :=
  g ← get;
  let remaining_players := (length (players g) + 1)%nat in
  if bool_decide (length (cards (deck g)) < remaining_players * 2 + 15)%nat
  then print (LowCardCount (length (cards (deck g))));;
       add_additional_deck
  else mret tt.

(** *** Methods that are handed a player

    A method [m(self, player)] runs on the pair of the player it was
    handed and the game. *)
Definition in_player {A} (m : M Player A) : M (Player * Game) A :=
  zoom fst (fun p s => (p, s.2)) m.

Definition in_game {A} (m : M Game A) : M (Player * Game) A :=
  zoom snd (fun g s => (s.1, g)) m.

(** [for player in self.players: body(player)], by position, as the list
    iterator does. *)
Fixpoint for_players_from (body : M (Player * Game) unit)
    (i n : nat) : M Game unit :=
  match n with
  | O => mret tt
  | S n' => fun g =>
      match players g !! i with
      | None => Ret tt g
      | Some p =>
          match body (p, g) with
          | Ret _ (p', g') =>
              for_players_from body (S i) n'
                (set_players (<[i := p']> (players g')) g')
          | Raise e (p', g') =>
              Raise e (set_players (<[i := p']> (players g')) g')
          | Diverge => Diverge
          end
      end
  end.

Definition for_players (body : M (Player * Game) unit) : M Game unit :=
  g ← get; for_players_from body 0 (length (players g)).

(** [self.dealer.<method>(...)] and the methods run on the dealer. *)
Definition on_dealer {A} (m : M (Player * Game) A) : M Game A :=
  fun g =>
    match m (dealer g, g) with
    | Ret a (d, g') => Ret a (set_dealer d g')
    | Raise e (d, g') => Raise e (set_dealer d g')
    | Diverge => Diverge
    end.

(** [Player.show_hand] *)
Definition show_hand : M (Player * Game) unit :=
  s ← get;
  let p := s.1 in
  if is_dealer p
  then
    let visible_hand :=
      if bool_decide (length (hand p) = 2%nat) then take 1 (hand p)
      else hand p in
    in_game (print (DealerVisible visible_hand))
  else in_game (print (ShowHand (name p) (hand p) (total p))).

(** [player.add_card(self.deck.dealcards())] *)
Definition deal_to_player : M (Player * Game) unit :=
  card ← in_game (in_deck dealcards);
  in_player (add_card card).

Definition start_round : M Game unit :=
  check_deck_size;;
  for_players (deal_to_player;; deal_to_player;; show_hand);;
  on_dealer (deal_to_player;; deal_to_player;; show_hand).

(** [card1, card2 = ...] on a list that does not have exactly two items
    (a [ValueError]; the wording of its message is the interpreter's). *)
Definition unpack_error {A} (l : list A) : exn :=
  if bool_decide (length l < 2)%nat
  then ValueError "not enough values to unpack (expected 2)"
  else ValueError "too many values to unpack (expected 2)".

(** [Game.split_hand], given the procedure that plays one hand (it is
    [player_turn] itself, see below).  [play_split_hand] is the body of
    the loop over [enumerate(split_hands, start=1)]. *)
Definition play_split_hand (turn : M (Player * Game) bool)
    (i : nat) (h : list Cards) : M (Player * Game) unit :=
  s ← get;
  in_game (print (PlayingHand i (name s.1)));;
  in_player (modify (set_hand h));;
  deal_to_player;;
  show_hand;;
  ok ← turn;
  if negb ok then in_game (print (HandBusted i (name s.1))) else mret tt.

Definition split_hand_with (turn : M (Player * Game) bool)
    : M (Player * Game) unit :=
  s ← get;
  match hand s.1 with
  | [card1; card2] =>
      play_split_hand turn 1 [card1];;
      play_split_hand turn 2 [card2]
  | h => raise (unpack_error h)
  end.

(** [player.hand[0].rank == player.hand[1].rank] (evaluated only after
    [len(player.hand) == 2] held). *)
Definition same_rank (h : list Cards) : bool :=
  match h with
  | c1 :: c2 :: _ => String.eqb (rank c1) (rank c2)
  | _ => false
  end.

(** [Game.player_turn]: every pass through the [while True] loop starts by
    reading one line, and [fuel] bounds the number of passes, those of the
    nested turns of split hands included. *)
Fixpoint player_turn (fuel : nat) : M (Player * Game) bool :=
  match fuel with
  | O => fun _ => Diverge
  | S fuel' =>
      s ← get;
      line ← in_game (input (AskAction (name s.1)));
      let action := lower line in
      if String.eqb action "d" && bool_decide (length (hand s.1) = 2%nat)
      then
        try_except_ValueError
          (in_player (place_bet (current_bet s.1));;
           in_game (print (DoublesDown (name s.1)));;
           deal_to_player;;
           show_hand;;
           mret true)
          (fun msg => in_game (print (ErrorText msg));; player_turn fuel')
      else if String.eqb action "sp"
              && bool_decide (length (hand s.1) = 2%nat)
              && same_rank (hand s.1)
      then
        in_game (print (Splits (name s.1)));;
        split_hand_with (player_turn fuel');;
        mret true
      else if String.eqb action "h"
      then
        deal_to_player;;
        show_hand;;
        s' ← get;
        if bool_decide (total s'.1 > 21)
        then in_game (print (Busted (name s'.1)));; mret false
        else player_turn fuel'
      else if String.eqb action "s"
      then in_game (print (Stands (name s.1) (total s.1)));; mret true
      else in_game (print InvalidInput);; player_turn fuel'
  end.

Definition split_hand (fuel : nat) : M (Player * Game) unit :=
  split_hand_with (player_turn fuel).

(** [Game.dealer_turn]; [fuel] bounds the passes of [while
    self.dealer.total < 17]. *)
Fixpoint dealer_draws (fuel : nat) : M (Player * Game) unit :=
  match fuel with
  | O => fun _ => Diverge
  | S fuel' =>
      s ← get;
      if bool_decide (total s.1 < 17)
      then deal_to_player;; show_hand;; dealer_draws fuel'
      else mret tt
  end.

Definition dealer_turn (fuel : nat) : M Game unit :=
  print DealersTurn;;
  on_dealer (show_hand;; dealer_draws fuel).

(** [Game.check_winner] *)
Definition check_winner : M (Player * Game) unit :=
  s ← get;
  let player := s.1 in
  let dealer_total := total (dealer s.2) in
  if bool_decide (total player > 21)
  then in_game (print (BustedDealerWins (name player)));;
       in_player lose_bet
  else if bool_decide (dealer_total > 21)
          || bool_decide (total player > dealer_total)
  then in_game (print (WinsAgainstDealer (name player)));;
       in_player win_bet
  else if bool_decide (total player < dealer_total)
  then in_game (print (DealerWinsAgainst (name player)));;
       in_player lose_bet
  else in_game (print (Ties (name player)));;
       in_player (in_money (modify (fun m =>
         {| balance := balance m + current_bet player |}))).

(** One of the three [if] blocks of [evaluate_side_bets]:
    [if player.side_bets.get(kind) and cond:
       player.money.win_bet(player.side_bets[kind] * multiplier)].
    [get] yields [None] for a missing key, and [None] and [0] are false. *)
Definition pay_side_bet (kind : string) (multiplier : Z) (cond : bool)
    : M (Player * Game) unit :=
  s ← get;
  match side_bets s.1 !! kind with
  | None => mret tt
  | Some amount =>
      if negb (amount =? 0) && cond
      then in_game (print (SideBetWon (name s.1) kind));;
           in_player (in_money (Money_win_bet (amount * multiplier)))
      else mret tt
  end.

(** [Game.evaluate_side_bets] *)
Definition evaluate_side_bets : M (Player * Game) unit :=
  s ← get;
  match take 2 (hand s.1) with
  | [card1; card2] =>
      pay_side_bet "dealer_bust" 3 (bool_decide (total (dealer s.2) > 21));;
      pay_side_bet "mixed_pair" 5
        (String.eqb (rank card1) (rank card2)
         && negb (String.eqb (suit card1) (suit card2)));;
      pay_side_bet "same_pair" 12
        (String.eqb (rank card1) (rank card2)
         && String.eqb (suit card1) (suit card2))
  | h => raise (unpack_error h)
  end.

(** The body of each [try] of [request_side_bets], once the amount has
    been read: [player.money.bet_amount(amount)], then
    [player.side_bets[kind] = amount] and the confirmation. *)
Definition place_side_bet (kind : string) (amount : Z)
    : M (Player * Game) unit :=
  in_player (in_money (bet_amount amount));;
  in_player (modify (fun p => set_side_bets (<[kind := amount]> (side_bets p)) p));;
  s ← get;
  in_game (print (SideBetPlaced (name s.1) kind amount)).

(** [int(input(...))] (the wording of the error is the interpreter's) *)
Definition input_int (p : Prompt) : M Game Z :=
  line ← input p;
  match int line with
  | Some n => mret n
  | None => raise (ValueError ("invalid literal for int() with base 10: " ++ line))
  end.

(** The [while True: try ... break / except ValueError as e: print(e)]
    loop that asks for the amount of one side bet. *)
Fixpoint ask_side_bet_amount (fuel : nat) (kind : string)
    : M (Player * Game) unit :=
  match fuel with
  | O => fun _ => Diverge
  | S fuel' =>
      try_except_ValueError
        (amount ← in_game (input_int (AskSideBetAmount kind));
         place_side_bet kind amount)
        (fun msg => in_game (print (ErrorText msg));;
                    ask_side_bet_amount fuel' kind)
  end.

(** One of the three blocks of [request_side_bets]. *)
Definition request_side_bet (fuel : nat) (kind : string)
    : M (Player * Game) unit :=
  answer ← in_game (input (AskSideBet kind));
  if String.eqb (lower answer) "y"
  then ask_side_bet_amount fuel kind
  else in_player (modify (fun p => set_side_bets (<[kind := 0]> (side_bets p)) p)).

Definition request_side_bets (fuel : nat) : M (Player * Game) unit :=
  s ← get;
  in_game (print (SideBetsOffer (name s.1)));;
  request_side_bet fuel "dealer_bust";;
  request_side_bet fuel "mixed_pair";;
  request_side_bet fuel "same_pair".

(** [Game.eliminate_players] *)
Definition eliminate_players : M Game unit :=
  modify (fun g =>
    set_players (filter (fun p => balance (money p) > 0) (players g)) g);;
  g ← get;
  if bool_decide (length (players g) = 0%nat)
  then print AllPlayersOut
  else mret tt.

End Game.

(** * Definitions used to state the properties *)

(** ** The reference valuation of the specification

    Sum the fixed values of the cards that are not Aces, add 11 for each
    Ace; then, while the total exceeds 21 and an Ace is still counted as
    11, subtract 10.  An Ace is a card whose value is the flexible pair. *)

Definition is_ace (c : Cards) : bool :=
  match value c with VList _ => true | VInt _ => false end.

Definition fixed_value (c : Cards) : Z :=
  match value c with VInt n => n | VList _ => 0 end.

Definition spec_aces (h : list Cards) : nat :=
  length (filter (fun c => is_ace c = true) h).

Definition spec_initial (h : list Cards) : Z :=
  foldr Z.add 0 (fixed_value <$> filter (fun c => is_ace c = false) h)
  + 11 * Z.of_nat (spec_aces h).

(** The [while] of the reference valuation, as the relation between the
    pair (total, Aces counted as 11) it starts from and the pair it ends
    with. *)
Inductive spec_reduces : Z * nat -> Z * nat -> Prop :=
| spec_reduces_done t k :
    ~ (t > 21 /\ (0 < k)%nat) -> spec_reduces (t, k) (t, k)
| spec_reduces_step t k r :
    t > 21 -> spec_reduces (t - 10, k) r -> spec_reduces (t, S k) r.

Definition spec_total (h : list Cards) (t : Z) : Prop :=
  exists k, spec_reduces (spec_initial h, spec_aces h) (t, k).

Definition ace_of (s : string) : Cards := mkCards s "Ace" (VList [1; 11]).
Definition king_of (s : string) : Cards := mkCards s "King" (VInt 10).

(** ** Names for the two errors of the module *)

Definition insufficient_balance : exn :=
  ValueError "Not enough balance to place this bet!".

Definition empty_deck : exn :=
  ValueError "Deck is empty, cannot deal any more cards.".

(** A line that asks neither to double down nor to split. *)
Definition hit_or_stand_line (line : string) : bool :=
  negb (String.eqb (lower line) "d") && negb (String.eqb (lower line) "sp").

(** A message that announces neither a Double Down nor a Split. *)
Definition hit_or_stand (m : Msg) : bool :=
  match m with
  | DoublesDown _ | Splits _ => false
  | _ => true
  end.

(** ** What the methods leave behind *)

Section Effects.
Context `{Runtime}.

(** What a message does to the game: nothing but one more line printed. *)
Definition printed (m : Msg) (g : Game) : Game :=
  set_stdout (stdout g ++ [m]) g.

(** The ledger of a player credited with [amount]. *)
Definition credited (amount : Z) (p : Player) : Player :=
  set_money (mkMoney (balance (money p) + amount)) p.

(** The line [show_hand] prints for a player. *)
Definition shown (p : Player) : Msg :=
  if is_dealer p
  then DealerVisible (if bool_decide (length (hand p) = 2%nat)
                      then take 1 (hand p) else hand p)
  else ShowHand (name p) (hand p) (total p).

(** The player after a card was added to the hand. *)
Definition with_card (c : Cards) (p : Player) : Player :=
  set_total (hand_total (hand p ++ [c])) (set_hand (hand p ++ [c]) p).

(** [len(self.deck)] *)
Definition deck_size (g : Game) : nat := length (cards (deck g)).

(** [(len(self.players) + 1) * 2 + 15] *)
Definition low_mark (g : Game) : nat :=
  ((length (players g) + 1) * 2 + 15)%nat.

(** The body of both loops of [start_round]. *)
Definition deal_two : M (Player * Game) unit :=
  deal_to_player;; deal_to_player;; show_hand.

(** The state [s'] comes after [s]: input was only consumed, and the
    lines printed in between all satisfy [P]. *)
Definition after (P : Msg -> Prop) (s s' : Player * Game) : Prop :=
  stdin s'.2 `suffix_of` stdin s.2
  /\ exists new, stdout s'.2 = (stdout s.2 ++ new)%list /\ Forall P new.

(** The method returned or raised, in a state that satisfies [Q]. *)
Definition ends {A} (Q : Player * Game -> Prop)
    (r : result (Player * Game) A) : Prop :=
  match r with
  | Ret _ s' | Raise _ s' => Q s'
  | Diverge => False
  end.

(** The turn can be played from [s] with [fuel]: fewer lines are left to
    read than [fuel], and either none of them asks to double down or to
    split, or [P] allows every message. *)
Definition playable (P : Msg -> Prop) (fuel : nat) (s : Player * Game)
    : Prop :=
  (length (stdin s.2) < fuel)%nat
  /\ (Forall (fun line => hit_or_stand_line line = true) (stdin s.2)
      \/ forall m, P m).

End Effects.

(** ** A runtime to compute with *)

(** Decimal literals with an optional sign, which is the part of [int]'s
    syntax the examples below use. *)
Definition digit_of (c : ascii) : option Z :=
  let n := nat_of_ascii c in
  if ((48 <=? n) && (n <=? 57))%nat then Some (Z.of_nat (n - 48)) else None.

Fixpoint parse_digits (acc : Z) (s : string) : option Z :=
  match s with
  | EmptyString => Some acc
  | String c s' =>
      match digit_of c with
      | Some d => parse_digits (10 * acc + d) s'
      | None => None
      end
  end.

Definition parse_int (s : string) : option Z :=
  match s with
  | EmptyString => None
  | String "-" (String c s') => Z.opp <$> parse_digits 0 (String c s')
  | String "-" EmptyString => None
  | _ => parse_digits 0 s
  end.

(** A runtime whose [random.shuffle] happens to reverse the list (one of
    the rearrangements it may produce) and whose generator has no state. *)
Definition reversing_runtime : Runtime :=
  {| RNG := unit;
     shuffle_list := fun r l => (reverse l, r);
     shuffle_list_perm := fun r l => reverse_Permutation l;
     int := parse_int |}.

(** ** Tables to compute on *)

Definition number_card (s r : string) (n : Z) : Cards := mkCards s r (VInt n).

Definition eight_of (s : string) : Cards := number_card s "8" 8.

(** A player holding the hand [h], the total computed from it. *)
Definition holding (h : list Cards) (p : Player) : Player :=
  set_total (hand_total h) (set_hand h p).

Definition the_dealer : Player := Player_init "Dealer" true 10000.

(** A game with no roster yet, on the reversing runtime: the cards left in
    the deck (the next one to be dealt last), the dealer, and the lines
    waiting on standard input. *)
Definition table (cs : list Cards) (d : Player) (lines : list string)
    : @Game reversing_runtime :=
  @mkGame reversing_runtime (mkDeck cs cs) [] d tt lines [].

(** Ann declines the first two side bets and puts 10 on Same Pair; the
    next two cards of the deck are both the eight of diamonds (the deck
    holds two sets); the dealer holds 18. *)
Definition same_pair_table : @Game reversing_runtime :=
  table [eight_of "Diamonds"; eight_of "Diamonds"]
    (holding [king_of "Clubs"; eight_of "Clubs"] the_dealer)
    ["n"; "n"; "y"; "10"].

(** The side bets are asked for, two cards are dealt, and the side bets
    are settled. *)
Definition same_pair_round : @M (Player * @Game reversing_runtime) unit :=
  @request_side_bets reversing_runtime 1;;
  @deal_to_player reversing_runtime;;
  @deal_to_player reversing_runtime;;
  @evaluate_side_bets reversing_runtime.

(** Ann and Bob at a table with a full deck. *)
Definition two_player_table : @Game reversing_runtime :=
  @mkGame reversing_runtime
    (mkDeck _create_deck _create_deck)
    [Player_init "Ann" false 100; Player_init "Bob" false 100]
    the_dealer tt [] [].

(** Thirty players at a table where four cards are left. *)
Definition crowded_table : @Game reversing_runtime :=
  @mkGame reversing_runtime
    (mkDeck (take 4 _create_deck) _create_deck)
    (replicate 30 (Player_init "Pat" false 10000))
    the_dealer tt [] [].

Definition ann : Player := Player_init "Ann" false 100.

(** Ann after a bet of [bet] was taken from a balance of 100. *)
Definition ann_after_bet (bet : Z) : Player :=
  set_current_bet bet (set_money (mkMoney (100 - bet)) ann).


(** Ann holds 5 and 6 and types [D]; the next card is a King; the dealer
    holds 19. *)
Definition double_down_table : @Game reversing_runtime :=
  table [number_card "Clubs" "2" 2; king_of "Hearts"]
    (holding [king_of "Clubs"; number_card "Hearts" "9" 9] the_dealer)
    ["D"].

(** Ann bet 10 and was dealt two eights. *)
Definition ann_with_eights : Player :=
  holding [eight_of "Diamonds"; eight_of "Spades"] (ann_after_bet 10).

(** The cards to come are the eight of hearts, a 3, a King, a 9 and a 10;
    Ann, who has just split, types [sp], [d], [s], [s]. *)
Definition resplit_table : @Game reversing_runtime :=
  table [number_card "Diamonds" "10" 10; number_card "Clubs" "9" 9;
         king_of "Hearts"; number_card "Clubs" "3" 3; eight_of "Hearts"]
    (holding [king_of "Clubs"; number_card "Hearts" "9" 9] the_dealer)
    ["sp"; "d"; "s"; "s"].

(** The cards to come are a 5, a 3, a 9 and a 10; Ann, who has just split,
    types [H], [s], [s]. *)
Definition hit_stand_table : @Game reversing_runtime :=
  table [number_card "Diamonds" "10" 10; number_card "Clubs" "9" 9;
         number_card "Clubs" "3" 3; number_card "Hearts" "5" 5]
    (holding [king_of "Clubs"; number_card "Hearts" "9" 9] the_dealer)
    ["H"; "s"; "s"].

(** * Hand valuation: the loops of [calculate_total] *)

Lemma spec_reduces_fun s r1 r2 :
  spec_reduces s r1 -> spec_reduces s r2 -> r1 = r2.
Proof.
  intros H1; revert r2.
  induction H1 as [t k Hstop | t k r Hgt _ IH]; intros r2 H2.
  - inversion H2; subst; [done | exfalso; apply Hstop; lia].
  - inversion H2; subst; [exfalso; lia | by apply IH].
Qed.

Lemma soften_reduces t k : exists k', spec_reduces (t, k) (soften t k, k').
Proof.
  revert t; induction k as [| k IH]; intros t; simpl.
  - exists 0%nat. constructor. lia.
  - case_bool_decide as Hgt.
    + destruct (IH (t - 10)) as [k' Hk']. exists k'. by constructor.
    + exists (S k). constructor. lia.
Qed.

Lemma count_card_spec (c : Cards) (acc : Z * nat) :
  count_card acc c =
    (acc.1 + (if is_ace c then 11 else fixed_value c),
     (acc.2 + (if is_ace c then 1 else 0))%nat).
Proof.
  unfold count_card, is_ace, fixed_value.
  destruct (value c); simpl; f_equal; lia.
Qed.

Lemma spec_initial_cons c h :
  spec_initial (c :: h) =
    (if is_ace c then 11 else fixed_value c) + spec_initial h.
Proof.
  unfold spec_initial, spec_aces. rewrite !filter_cons.
  destruct (is_ace c) eqn:Hc; repeat case_decide; try congruence;
    csimpl; lia.
Qed.

Lemma spec_aces_cons c h :
  spec_aces (c :: h) = ((if is_ace c then 1 else 0) + spec_aces h)%nat.
Proof.
  unfold spec_aces. rewrite filter_cons.
  destruct (is_ace c); case_decide; try congruence; done.
Qed.

Lemma foldl_count_card h acc :
  foldl count_card acc h =
    (acc.1 + spec_initial h, (acc.2 + spec_aces h)%nat).
Proof.
  revert acc; induction h as [| c h IH]; intros [t k]; simpl.
  - unfold spec_initial, spec_aces; simpl. f_equal; lia.
  - rewrite IH, count_card_spec, spec_initial_cons, spec_aces_cons; simpl.
    f_equal; lia.
Qed.

Lemma hand_total_unfold h :
  hand_total h = soften (spec_initial h) (spec_aces h).
Proof.
  unfold hand_total. rewrite foldl_count_card; simpl. f_equal.
Qed.

Lemma spec_initial_perm h1 h2 : h1 ≡ₚ h2 -> spec_initial h1 = spec_initial h2.
Proof.
  induction 1 as [| c h1 h2 _ IH | c1 c2 h | h1 h2 h3 _ IH1 _ IH2].
  - done.
  - rewrite !spec_initial_cons. lia.
  - rewrite !spec_initial_cons. lia.
  - congruence.
Qed.

Lemma spec_aces_perm h1 h2 : h1 ≡ₚ h2 -> spec_aces h1 = spec_aces h2.
Proof.
  induction 1 as [| c h1 h2 _ IH | c1 c2 h | h1 h2 h3 _ IH1 _ IH2].
  - done.
  - rewrite !spec_aces_cons. lia.
  - rewrite !spec_aces_cons. lia.
  - congruence.
Qed.

(** C3: [calculate_total] stores and returns a total that is exactly the
    one the reference valuation yields (non-Ace values summed, 11 per Ace,
    10 subtracted while the total exceeds 21 and an Ace still counts 11);
    four Aces total 14 and Ace plus King total 21.  The cards the
    valuation treats as Aces are, in a deck, those of rank Ace. *)
Theorem calculate_total_matches_reference :
  (forall p : Player,
      calculate_total p
      = Ret (hand_total (hand p)) (set_total (hand_total (hand p)) p))
  /\ (forall (h : list Cards) (t : Z), spec_total h t <-> hand_total h = t)
  /\ hand_total [ace_of "Spades"; ace_of "Hearts"; ace_of "Clubs";
                 ace_of "Diamonds"] = 14
  /\ hand_total [ace_of "Spades"; king_of "Hearts"] = 21
  /\ Forall (fun c => is_ace c = String.eqb (rank c) "Ace") _create_deck.
Proof.
  split; [done |].
  split; [| split; [done | split; [done | repeat constructor]]].
  intros h t. rewrite hand_total_unfold.
  destruct (soften_reduces (spec_initial h) (spec_aces h)) as [k' Hk'].
  split.
  - intros [k Hk]. by injection (spec_reduces_fun _ _ _ Hk' Hk).
  - intros <-. by exists k'.
Qed.

(** C4: the total of a hand does not depend on the order of its cards. *)
Theorem hand_total_permutation (h1 h2 : list Cards) :
  h1 ≡ₚ h2 -> hand_total h1 = hand_total h2.
Proof.
  intros Hperm. rewrite !hand_total_unfold.
  by rewrite (spec_initial_perm _ _ Hperm), (spec_aces_perm _ _ Hperm).
Qed.

Lemma hand_total_permutation_witness :
  hand_total [king_of "Hearts"; ace_of "Spades"; ace_of "Clubs"]
  = hand_total [ace_of "Clubs"; king_of "Hearts"; ace_of "Spades"].
Proof.
  apply hand_total_permutation.
  change ([king_of "Hearts"; ace_of "Spades"] ++ [ace_of "Clubs"]
          ≡ₚ [ace_of "Clubs"] ++ [king_of "Hearts"; ace_of "Spades"]).
  apply Permutation_app_comm.
Defined.

(** * The ledger and the deck *)

Lemma bet_amount_ok (m : Money) (amount : Z) :
  amount <= balance m ->
  bet_amount amount m = Ret amount (mkMoney (balance m - amount)).
Proof. intros Hle. unfold bet_amount. by rewrite bool_decide_false by lia. Qed.

Lemma bet_amount_fail (m : Money) (amount : Z) :
  amount > balance m -> bet_amount amount m = Raise insufficient_balance m.
Proof. intros Hgt. unfold bet_amount. by rewrite bool_decide_true by lia. Qed.

Lemma place_bet_ok (p : Player) (amount : Z) :
  amount <= balance (money p) ->
  place_bet amount p
  = Ret tt (set_current_bet amount
              (set_money (mkMoney (balance (money p) - amount)) p)).
Proof.
  intros Hle. unfold place_bet, in_money, zoom, mbind, M_bind.
  by rewrite bet_amount_ok.
Qed.

Lemma place_bet_fail (p : Player) (amount : Z) :
  amount > balance (money p) ->
  place_bet amount p = Raise insufficient_balance p.
Proof.
  intros Hgt. unfold place_bet, in_money, zoom, mbind, M_bind.
  rewrite bet_amount_fail by done. by destruct p.
Qed.

(** C5: placing a bet fails, with the insufficient-balance error, exactly
    when the amount exceeds the balance; a failed attempt leaves the ledger
    as it was; a successful one returns the amount and leaves the balance
    lowered by exactly that amount. *)
Theorem bet_amount_check_then_commit (m : Money) (amount : Z) :
  (amount > balance m <-> exists e m', bet_amount amount m = Raise e m')
  /\ (forall e m', bet_amount amount m = Raise e m' ->
        e = insufficient_balance /\ m' = m)
  /\ (forall a m', bet_amount amount m = Ret a m' ->
        a = amount /\ balance m' = balance m - amount)
  /\ (~ amount > balance m ->
        bet_amount amount m = Ret amount (mkMoney (balance m - amount)))
  /\ bet_amount amount m <> Diverge.
Proof.
  destruct (decide (amount > balance m)) as [Hgt | Hle].
  - rewrite bet_amount_fail by done.
    split; [| split; [| split; [| split]]]; try done.
    + split; [by eexists _, _ | done].
    + by intros e m' [= <- <-].
  - rewrite bet_amount_ok by lia.
    split; [| split; [| split; [| split]]]; try done.
    + split; [done | by intros (? & ? & ?)].
    + by intros a m' [= <- <-].
Qed.

(** C10: the ledger puts no lower bound on the amount: every amount not
    above the balance, zero and the negative ones included, is accepted
    and subtracted, so a negative bet raises the balance. *)
Theorem bet_amount_accepts_nonpositive (p : Player) (amount : Z) :
  amount <= balance (money p) ->
  bet_amount amount (money p)
  = Ret amount (mkMoney (balance (money p) - amount))
  /\ (exists p', place_bet amount p = Ret tt p'
        /\ balance (money p') = balance (money p) - amount
        /\ current_bet p' = amount
        /\ (amount < 0 -> balance (money p') > balance (money p))).
Proof.
  intros Hle. split; [by apply bet_amount_ok |].
  eexists. split; [by apply place_bet_ok |]. simpl. repeat split; lia.
Qed.

Lemma bet_amount_accepts_nonpositive_witness :
  bet_amount (-5) (money (Player_init "Ann" false 100)) = Ret (-5) (mkMoney 105)
  /\ (exists p', place_bet (-5) (Player_init "Ann" false 100) = Ret tt p'
        /\ balance (money p') = 100 - -5
        /\ current_bet p' = -5
        /\ (-5 < 0 -> balance (money p') > 100)).
Proof.
  apply (bet_amount_accepts_nonpositive (Player_init "Ann" false 100) (-5)).
  simpl. lia.
Defined.

Lemma pop_snoc {A} (l : list A) (x : A) : pop (l ++ [x]) = Some (x, l).
Proof.
  induction l as [| y l IH]; [done |].
  simpl. rewrite IH. by destruct l.
Qed.

Lemma pop_Some {A} (l rest : list A) (x : A) :
  pop l = Some (x, rest) -> l = (rest ++ [x])%list.
Proof.
  destruct l as [| y l] using rev_ind; [done |].
  rewrite pop_snoc. congruence.
Qed.

Lemma dealcards_snoc (d : Deck) (rest : list Cards) (c : Cards) :
  cards d = (rest ++ [c])%list ->
  dealcards d = Ret c (mkDeck rest (original_cards d)).
Proof.
  intros Hd. unfold dealcards. rewrite Hd, pop_snoc.
  rewrite bool_decide_false; [done |]. rewrite length_app; simpl; lia.
Qed.

Lemma dealcards_empty (d : Deck) :
  cards d = [] -> dealcards d = Raise empty_deck d.
Proof. intros Hd. unfold dealcards. by rewrite Hd. Qed.

(** C6: dealing fails, with the empty-deck error, exactly when no card
    remains, and then leaves the deck as it was; from a deck that is not
    empty it removes and returns exactly one card (the last one), the
    other cards being kept, so the size goes down by exactly one. *)
Theorem dealcards_one_card_or_error (d : Deck) :
  (cards d = [] <-> exists e d', dealcards d = Raise e d')
  /\ (forall e d', dealcards d = Raise e d' -> e = empty_deck /\ d' = d)
  /\ (cards d <> [] -> exists c d', dealcards d = Ret c d')
  /\ (forall c d', dealcards d = Ret c d' ->
        cards d = (cards d' ++ [c])%list
        /\ S (length (cards d')) = length (cards d)
        /\ original_cards d' = original_cards d).
Proof.
  destruct (cards d) as [| c0 l0] eqn:Hd using rev_ind.
  - rewrite dealcards_empty by done.
    split; [| split; [| split]]; try done.
    + split; [by eexists _, _ | done].
    + by intros e d' [= <- <-].
  - clear IHl0. rewrite (dealcards_snoc d l0 c0) by done.
    split; [| split; [| split]]; try done.
    + split; [intros Hnil; by destruct l0 | by intros (? & ? & ?)].
    + by eexists _, _.
    + intros c d' [= <- <-]. simpl. rewrite length_app; simpl.
      split; [done | split; [lia | done]].
Qed.

(** * Settling bets *)

Ltac unfold_monad :=
  unfold mbind, M_bind, mret, M_ret, get, modify, raise, zoom.

Section Settling.
Context `{Runtime}.


Lemma check_winner_win (p : Player) (g : Game) :
  total p <= 21 ->
  total (dealer g) > 21 \/ total p > total (dealer g) ->
  check_winner (p, g)
  = Ret tt (credited (current_bet p * 2) p,
            printed (WinsAgainstDealer (name p)) g).
Proof.
  intros Hp Hd. unfold check_winner, in_game, in_player, win_bet, in_money,
    Money_win_bet, print. unfold_monad. simpl.
  rewrite bool_decide_false by lia.
  destruct Hd as [Hd | Hd].
  - by rewrite (bool_decide_true _ Hd).
  - rewrite (bool_decide_true (total p > _) Hd). by rewrite orb_true_r.
Qed.




End Settling.


(** * Side bets *)

Section SideBets.
Context `{Runtime}.

Lemma place_side_bet_ok (kind : string) (amount : Z) (p : Player) (g : Game) :
  amount <= balance (money p) ->
  place_side_bet kind amount (p, g)
  = Ret tt
      (set_side_bets (<[kind := amount]> (side_bets p))
         (set_money (mkMoney (balance (money p) - amount)) p),
       printed (SideBetPlaced (name p) kind amount) g).
Proof.
  intros Hle. unfold place_side_bet, in_player, in_game, in_money, print.
  unfold_monad. simpl. by rewrite bet_amount_ok.
Qed.

Lemma pay_side_bet_won (kind : string) (mult amount : Z) (p : Player) (g : Game) :
  side_bets p !! kind = Some amount -> amount <> 0 ->
  pay_side_bet kind mult true (p, g)
  = Ret tt (credited (amount * mult * 2) p, printed (SideBetWon (name p) kind) g).
Proof.
  intros Hk Hnz. unfold pay_side_bet, in_player, in_game,
    in_money, Money_win_bet, print.
  unfold_monad. simpl. rewrite Hk.
  destruct (Z.eqb_spec amount 0) as [| _]; [done |]. done.
Qed.

Lemma side_bet_net_change (kind : string) (mult amount : Z)
    (p p' : Player) (g g' : Game) :
  amount <> 0 -> amount <= balance (money p) ->
  exists p1 g1,
    place_side_bet kind amount (p, g) = Ret tt (p1, g1)
    /\ (money p' = money p1 -> side_bets p' = side_bets p1 ->
        exists p2 g2,
          pay_side_bet kind mult true (p', g') = Ret tt (p2, g2)
          /\ balance (money p2)
             = balance (money p) + (2 * mult - 1) * amount).
Proof.
  intros Hnz Hle. rewrite place_side_bet_ok by done.
  eexists _, _. split; [done |]. simpl. intros Hm Hs.
  rewrite (pay_side_bet_won kind mult amount) by
    (done || (rewrite Hs; apply lookup_insert_eq)).
  eexists _, _. split; [done |]. simpl. rewrite Hm. simpl. lia.
Qed.
End SideBets.

(** C1: the side bets are paid through [win_bet], which credits twice its
    argument: a winning Same-Pair bet of 10, placed from a balance of 100,
    leaves 330, a net change of 230 = (2 * 12 - 1) * 10 and not the
    12 * 10 = 120 of a 12:1 payout. *)
Theorem same_pair_bet_of_10_nets_230 :
  exists p g,
    same_pair_round (Player_init "Ann" false 100, same_pair_table)
    = Ret tt (p, g)
    /\ side_bets p !! "same_pair" = Some 10
    /\ hand p = [eight_of "Diamonds"; eight_of "Diamonds"]
    /\ In (SideBetWon "Ann" "same_pair") (stdout g)
    /\ balance (money p) = 100 + 230.
Proof.
  eexists _, _. split; [vm_compute; reflexivity |].
  repeat split; try (vm_compute; reflexivity).
  vm_compute. tauto.
Qed.

(** * Doubling down *)

Section DoubleDown.
Context `{Runtime}.

Lemma deal_to_player_snoc (p : Player) (g : Game) (rest : list Cards) (c : Cards) :
  cards (deck g) = (rest ++ [c])%list ->
  deal_to_player (p, g)
  = Ret tt
      (set_total (hand_total (hand p ++ [c])) (set_hand (hand p ++ [c]) p),
       set_deck (mkDeck rest (original_cards (deck g))) g).
Proof.
  intros Hd. unfold deal_to_player, in_game, in_deck, in_player, add_card,
    calculate_total.
  unfold_monad. simpl. by rewrite (dealcards_snoc _ rest c).
Qed.

Lemma show_hand_eq (p : Player) (g : Game) :
  show_hand (p, g) = Ret tt (p, printed (shown p) g).
Proof.
  unfold show_hand, shown, in_game, print. unfold_monad. simpl.
  by destruct (is_dealer p).
Qed.

Lemma player_turn_double (fuel : nat) (p : Player) (g : Game)
    (line : string) (more : list string) (rest : list Cards) (c : Cards) :
  stdin g = line :: more ->
  lower line = "d" ->
  length (hand p) = 2%nat ->
  current_bet p <= balance (money p) ->
  cards (deck g) = (rest ++ [c])%list ->
  exists g',
    player_turn (S fuel) (p, g)
    = Ret true
        (with_card c
           (set_current_bet (current_bet p)
              (set_money (mkMoney (balance (money p) - current_bet p)) p)),
         g')
    /\ dealer g' = dealer g
    /\ In (DoublesDown (name p)) (stdout g').
Proof.
  intros Hin Hd Hlen Hbal Hdeck.
  eexists. split.
  - cbn [player_turn].
    unfold try_except_ValueError, in_game, in_player, input, print.
    unfold_monad. simpl. rewrite Hin. simpl.
    rewrite Hd, Hlen. simpl.
    rewrite place_bet_ok by done.
    erewrite deal_to_player_snoc by (simpl; exact Hdeck).
    simpl. rewrite show_hand_eq. reflexivity.
  - simpl. split; [done |]. rewrite !in_app_iff. simpl. tauto.
Qed.

(** C9: a successful Double Down places the current bet a second time and
    leaves [current_bet] as it was, so the stake debited is twice the bet
    while a win of the main bet still credits twice the bet only: over the
    round, a doubled-down hand that wins changes the balance by zero. *)
Theorem double_down_win_nets_zero
    (fuel : nat) (p0 p1 p : Player) (bet : Z) (g : Game)
    (line : string) (more : list string) (rest : list Cards) (c : Cards) :
  place_bet bet p0 = Ret tt p1 ->
  money p = money p1 ->
  current_bet p = current_bet p1 ->
  length (hand p) = 2%nat ->
  stdin g = line :: more ->
  lower line = "d" ->
  bet <= balance (money p) ->
  cards (deck g) = (rest ++ [c])%list ->
  exists p2 g2,
    player_turn (S fuel) (p, g) = Ret true (p2, g2)
    /\ In (DoublesDown (name p)) (stdout g2)
    /\ hand p2 = (hand p ++ [c])%list
    /\ total p2 = hand_total (hand p ++ [c])
    /\ current_bet p2 = bet
    /\ balance (money p2) = balance (money p0) - 2 * bet
    /\ forall g3 : Game,
         total p2 <= 21 ->
         total (dealer g3) > 21 \/ total p2 > total (dealer g3) ->
         exists p3 g4,
           check_winner (p2, g3) = Ret tt (p3, g4)
           /\ balance (money p3) = balance (money p2) + 2 * bet
           /\ balance (money p3) = balance (money p0).
Proof.
  intros Hbet Hmoney Hcur Hlen Hin Hd Hbal Hdeck.
  assert (Hle : bet <= balance (money p0)).
  { destruct (decide (bet <= balance (money p0))) as [| Hgt]; [done |].
    rewrite place_bet_fail in Hbet by lia. discriminate. }
  rewrite place_bet_ok in Hbet by done. injection Hbet as <-.
  simpl in Hmoney, Hcur.
  assert (Hb : balance (money p) = balance (money p0) - bet)
    by (by rewrite Hmoney).
  destruct (player_turn_double fuel p g line more rest c)
    as (g2 & Hturn & _ & Hout); try done; [lia |].
  eexists _, g2. split; [exact Hturn |]. split; [exact Hout |].
  simpl. repeat split; try lia.
  intros g3 Hp2 Hd3.
  rewrite check_winner_win by done.
  eexists _, _. split; [done |]. simpl. lia.
Qed.
End DoubleDown.

Lemma double_down_win_nets_zero_witness :
  exists p2 g2,
    @player_turn reversing_runtime 1
      (holding [number_card "Clubs" "5" 5; number_card "Diamonds" "6" 6]
         (ann_after_bet 20), double_down_table)
    = Ret true (p2, g2)
    /\ total p2 = 21
    /\ current_bet p2 = 20
    /\ balance (money p2) = 60
    /\ exists p3 g4,
         @check_winner reversing_runtime (p2, double_down_table)
         = Ret tt (p3, g4)
         /\ balance (money p3) = 100.
Proof.
  destruct (double_down_win_nets_zero (H := reversing_runtime) 0
              ann (ann_after_bet 20)
              (holding [number_card "Clubs" "5" 5;
                        number_card "Diamonds" "6" 6] (ann_after_bet 20))
              20 double_down_table "D" []
              [number_card "Clubs" "2" 2] (king_of "Hearts")
              eq_refl eq_refl eq_refl eq_refl eq_refl eq_refl
              ltac:(vm_compute; discriminate) eq_refl)
    as (p2 & g2 & Hturn & _ & _ & Htotal & Hcur & Hbal & Hwin).
  exists p2, g2. split; [exact Hturn |].
  split; [exact Htotal |]. split; [exact Hcur |]. split; [exact Hbal |].
  destruct (Hwin double_down_table) as (p3 & g4 & Hcheck & _ & Hback).
  - rewrite Htotal. vm_compute. discriminate.
  - right. rewrite Htotal. reflexivity.
  - by exists p3, g4.
Defined.

(** * Replenishing the deck and dealing a round *)

Section Replenish.
Context `{Runtime}.

Lemma create_deck_length : length _create_deck = 52%nat.
Proof. reflexivity. Qed.

Lemma shuffle_list_length (r : RNG) (l : list Cards) :
  length (shuffle_list r l).1 = length l.
Proof. apply Permutation_length, shuffle_list_perm. Qed.

Lemma check_deck_size_low (g : Game) :
  (deck_size g < low_mark g)%nat ->
  exists g',
    check_deck_size g = Ret tt g'
    /\ cards (deck g') ≡ₚ (cards (deck g) ++ _create_deck)%list
    /\ deck_size g' = (deck_size g + 52)%nat
    /\ players g' = players g
    /\ dealer g' = dealer g.
Proof.
  intros Hlow. unfold check_deck_size, add_additional_deck, shuffle, in_deck,
    print. unfold_monad. unfold deck_size, low_mark in *. simpl.
  rewrite bool_decide_true by done. simpl.
  eexists. split; [done |]. unfold deck_size. simpl.
  split; [apply shuffle_list_perm |].
  rewrite shuffle_list_length, length_app, create_deck_length. done.
Qed.

Lemma check_deck_size_enough (g : Game) :
  ~ (deck_size g < low_mark g)%nat -> check_deck_size g = Ret tt g.
Proof.
  intros Hok. unfold check_deck_size. unfold_monad.
  unfold deck_size, low_mark in *. by rewrite bool_decide_false.
Qed.

Lemma deal_to_player_ok (p : Player) (g : Game) :
  (0 < deck_size g)%nat ->
  exists c g',
    deal_to_player (p, g) = Ret tt (with_card c p, g')
    /\ S (deck_size g') = deck_size g
    /\ players g' = players g
    /\ dealer g' = dealer g.
Proof.
  unfold deck_size. intros Hpos.
  destruct (cards (deck g)) as [| c0 rest] eqn:Hd using rev_ind;
    [simpl in Hpos; lia |].
  rewrite (deal_to_player_snoc p g rest c0 Hd).
  eexists _, _. split; [done |]. simpl.
  rewrite length_app. simpl. split; [lia | done].
Qed.

Lemma deal_to_player_empty (p : Player) (g : Game) :
  deck_size g = 0%nat -> deal_to_player (p, g) = Raise empty_deck (p, g).
Proof.
  unfold deck_size. intros Hz. apply length_zero_iff_nil in Hz.
  unfold deal_to_player, in_game, in_deck. unfold_monad. simpl.
  rewrite dealcards_empty by done.
  destruct g as [d ? ? ? ? ?]. by destruct d.
Qed.

Lemma deal_two_ok (p : Player) (g : Game) :
  (2 <= deck_size g)%nat ->
  exists p' g',
    deal_two (p, g) = Ret tt (p', g')
    /\ (deck_size g' + 2)%nat = deck_size g
    /\ players g' = players g
    /\ dealer g' = dealer g.
Proof.
  intros Hsz. unfold deal_two. unfold_monad.
  destruct (deal_to_player_ok p g) as (c1 & g1 & -> & Hs1 & Hp1 & Hd1);
    [lia |].
  destruct (deal_to_player_ok (with_card c1 p) g1)
    as (c2 & g2 & -> & Hs2 & Hp2 & Hd2); [lia |].
  rewrite show_hand_eq. eexists _, _. split; [done |].
  unfold deck_size in *. simpl. split; [lia |]. split; congruence.
Qed.

Lemma for_players_deal_two (n i : nat) (g : Game) :
  length (players g) = (i + n)%nat ->
  (2 * n <= deck_size g)%nat ->
  exists g',
    for_players_from deal_two i n g = Ret tt g'
    /\ (deck_size g' + 2 * n)%nat = deck_size g
    /\ length (players g') = length (players g)
    /\ dealer g' = dealer g.
Proof.
  revert i g. induction n as [| n IH]; intros i g Hlen Hsz.
  - exists g. simpl. split; [done |]. split; [lia | done].
  - destruct (lookup_lt_is_Some_2 (players g) i) as [p Hp]; [lia |].
    destruct (deal_two_ok p g) as (p' & g1 & Hrun & Hs1 & Hp1 & Hd1); [lia |].
    simpl. rewrite Hp, Hrun.
    destruct (IH (S i) (set_players (<[i:=p']> (players g1)) g1))
      as (g' & Hrun' & Hs' & Hp' & Hd').
    + simpl. rewrite length_insert, Hp1. lia.
    + unfold deck_size in *. simpl. lia.
    + exists g'. split; [exact Hrun' |]. unfold deck_size in *. simpl in *.
      rewrite length_insert in Hp'. split; [lia |]. split; congruence.
Qed.

Lemma start_round_eq :
  start_round = (check_deck_size;; for_players deal_two;; on_dealer deal_two).
Proof. reflexivity. Qed.

Lemma start_round_from (g g1 : Game) :
  check_deck_size g = Ret tt g1 ->
  length (players g1) = length (players g) ->
  (2 * (length (players g) + 1) <= deck_size g1)%nat ->
  exists g',
    start_round g = Ret tt g'
    /\ (deck_size g' + 2 * (length (players g) + 1))%nat = deck_size g1.
Proof.
  intros Hcheck Hlen Hsz. rewrite start_round_eq.
  unfold for_players. unfold_monad. rewrite Hcheck.
  destruct (for_players_deal_two (length (players g1)) 0 g1)
    as (g2 & Hrun & Hs2 & Hp2 & Hd2); [done | lia |].
  rewrite Hrun. unfold on_dealer.
  destruct (deal_two_ok (dealer g2) g2) as (d' & g3 & Hrun3 & Hs3 & _);
    [lia |].
  rewrite Hrun3. eexists. split; [done |].
  unfold deck_size in *. simpl. lia.
Qed.

Lemma deal_two_short (p : Player) (g : Game) :
  (deck_size g < 2)%nat ->
  exists p' g', deal_two (p, g) = Raise empty_deck (p', g').
Proof.
  intros Hsz. unfold deal_two. unfold_monad.
  destruct (decide (deck_size g = 0%nat)) as [Hz | Hnz].
  - rewrite deal_to_player_empty by done. by eexists _, _.
  - destruct (deal_to_player_ok p g) as (c1 & g1 & -> & Hs1 & _); [lia |].
    rewrite deal_to_player_empty by lia. by eexists _, _.
Qed.

Lemma for_players_deal_two_short (n i : nat) (g : Game) :
  length (players g) = (i + n)%nat ->
  (deck_size g < 2 * (n + 1))%nat ->
  exists g',
    (for_players_from deal_two i n;; on_dealer deal_two) g
    = Raise empty_deck g'.
Proof.
  revert i g. induction n as [| n IH]; intros i g Hlen Hsz.
  - unfold_monad. simpl. unfold on_dealer.
    destruct (deal_two_short (dealer g) g) as (d' & g' & ->); [lia |].
    by eexists.
  - destruct (lookup_lt_is_Some_2 (players g) i) as [p Hp]; [lia |].
    unfold_monad. simpl. rewrite Hp.
    destruct (decide (deck_size g < 2)%nat) as [Hshort | Hok].
    + destruct (deal_two_short p g Hshort) as (p' & g' & ->). by eexists.
    + destruct (deal_two_ok p g) as (p' & g1 & -> & Hs1 & Hp1 & Hd1);
        [lia |].
      apply (IH (S i) (set_players (<[i:=p']> (players g1)) g1)).
      * simpl. rewrite length_insert, Hp1. lia.
      * unfold deck_size in *. simpl. lia.
Qed.

Lemma start_round_short (g g1 : Game) :
  check_deck_size g = Ret tt g1 ->
  length (players g1) = length (players g) ->
  (deck_size g1 < 2 * (length (players g) + 1))%nat ->
  exists g', start_round g = Raise empty_deck g'.
Proof.
  intros Hcheck Hlen Hsz. rewrite start_round_eq.
  destruct (for_players_deal_two_short (length (players g1)) 0 g1)
    as (g' & Hrun); [done | lia |].
  exists g'. revert Hrun. unfold for_players. unfold_monad.
  by rewrite Hcheck.
Qed.

(** C7: when fewer than [(players + 1) * 2 + 15] cards remain, the check
    before a round appends one fresh set of 52 cards and reshuffles, so
    that exactly 52 more cards remain; otherwise it leaves the game as it
    is.  The dealing of two cards to each player and to the dealer that
    follows succeeds exactly when the deck then holds [2 * (players + 1)]
    cards, which is always so with at most 25 players; short of that it
    stops on the empty-deck error. *)
Theorem check_deck_size_then_deal (g : Game) :
  exists g1,
    check_deck_size g = Ret tt g1
    /\ players g1 = players g
    /\ ((deck_size g < low_mark g)%nat ->
          cards (deck g1) ≡ₚ (cards (deck g) ++ _create_deck)%list
          /\ deck_size g1 = (deck_size g + 52)%nat)
    /\ (~ (deck_size g < low_mark g)%nat -> g1 = g)
    /\ ((2 * (length (players g) + 1) <= deck_size g1)%nat ->
          exists g',
            start_round g = Ret tt g'
            /\ (deck_size g' + 2 * (length (players g) + 1))%nat
               = deck_size g1)
    /\ ((deck_size g1 < 2 * (length (players g) + 1))%nat ->
          exists g', start_round g = Raise empty_deck g')
    /\ ((length (players g) <= 25)%nat ->
          (2 * (length (players g) + 1) <= deck_size g1)%nat).
Proof.
  destruct (decide (deck_size g < low_mark g)%nat) as [Hlow | Hok].
  - destruct (check_deck_size_low g Hlow)
      as (g1 & Hcheck & Hperm & Hsz & Hp & _).
    exists g1. split; [done |]. split; [done |]. split; [done |].
    split; [done |]. split; [| split].
    + intros Hen. apply (start_round_from g g1); [done | by rewrite Hp | done].
    + intros Hsh. apply (start_round_short g g1); [done | by rewrite Hp | done].
    + lia.
  - exists g. split; [by apply check_deck_size_enough |].
    split; [done |]. split; [done |]. split; [done |]. split; [| split].
    + intros Hen.
      apply (start_round_from g g); [by apply check_deck_size_enough | done | done].
    + intros Hsh.
      apply (start_round_short g g); [by apply check_deck_size_enough | done | done].
    + unfold low_mark in Hok. lia.
Qed.

End Replenish.

Lemma check_deck_size_then_deal_witness :
  exists g',
    @start_round reversing_runtime two_player_table = Ret tt g'
    /\ (@deck_size reversing_runtime g' + 6)%nat = 52%nat.
Proof.
  destruct (check_deck_size_then_deal (H := reversing_runtime)
              two_player_table)
    as (g1 & _ & _ & _ & Hsame & Hdeal & _).
  rewrite Hsame in Hdeal by (vm_compute; lia).
  apply Hdeal. vm_compute. lia.
Defined.

(** With thirty players and four cards left the check adds its 52 cards,
    and the dealing, which needs 62, stops on the empty deck. *)
Lemma thirty_players_run_out :
  (@deck_size reversing_runtime crowded_table
     < @low_mark reversing_runtime crowded_table)%nat
  /\ exists g1 g',
       @check_deck_size reversing_runtime crowded_table = Ret tt g1
       /\ @deck_size reversing_runtime g1 = (4 + 52)%nat
       /\ @start_round reversing_runtime crowded_table = Raise empty_deck g'.
Proof.
  split; [vm_compute; lia |].
  eexists _, _. split; [vm_compute; reflexivity |].
  split; vm_compute; reflexivity.
Qed.

(** * The turns of split hands *)

Section Turns.
Context `{Runtime}.

Lemma Forall_forallb {A} (f : A -> bool) (l : list A) :
  Forall (fun x => f x = true) l -> forallb f l = true.
Proof. induction 1 as [| x l Hx _ IH]; simpl; [done |]. by rewrite Hx. Qed.

Lemma after_same_game P s s' : s'.2 = s.2 -> after P s s'.
Proof.
  intros Heq. unfold after. rewrite Heq.
  split; [done |]. exists []. by rewrite app_nil_r.
Qed.

Lemma after_refl P s : after P s s.
Proof. by apply after_same_game. Qed.

Lemma after_trans P s1 s2 s3 : after P s1 s2 -> after P s2 s3 -> after P s1 s3.
Proof.
  intros [Hs1 (n1 & Ho1 & Hn1)] [Hs2 (n2 & Ho2 & Hn2)]. split.
  - by etrans.
  - exists (n1 ++ n2)%list.
    rewrite Ho2, Ho1, app_assoc. split; [done |]. by apply Forall_app.
Qed.

Lemma ends_mono {A} (Q Q' : Player * Game -> Prop) (r : result _ A) :
  (forall s, Q s -> Q' s) -> ends Q r -> ends Q' r.
Proof. intros HQ. destruct r; simpl; auto. Qed.

Lemma ends_bind {A B} P (m : M (Player * Game) A) (k : A -> M _ B) s :
  ends (after P s) (m s) ->
  (forall a s', after P s s' -> ends (after P s') (k a s')) ->
  ends (after P s) ((m ≫= k) s).
Proof.
  intros Hm Hk. unfold mbind, M_bind. destruct (m s) as [a s' | e s' |];
    simpl in *; [| done | done].
  eapply ends_mono; [| by apply Hk].
  intros s''. by apply after_trans.
Qed.

Lemma ends_try {A} P (body : M (Player * Game) A) handler s :
  ends (after P s) (body s) ->
  (forall msg s', after P s s' -> ends (after P s') (handler msg s')) ->
  ends (after P s) (try_except_ValueError body handler s).
Proof.
  intros Hb Hh. unfold try_except_ValueError.
  destruct (body s) as [a s' | [msg | msg |] s' |]; simpl in *; try done.
  eapply ends_mono; [| by apply Hh].
  intros s''. by apply after_trans.
Qed.

Lemma ends_print {P} (m : Msg) s :
  P m -> ends (after P s) (in_game (print m) s).
Proof.
  intros Hm. unfold in_game, print. unfold_monad. simpl.
  split; [done |]. exists [m]. split; [done |]. by apply Forall_singleton.
Qed.

Lemma ends_in_player {A} P (m : M Player A) s :
  m s.1 <> Diverge -> ends (after P s) (in_player m s).
Proof.
  intros Hm. unfold in_player, zoom.
  destruct (m s.1); simpl; try done; by apply after_same_game.
Qed.

Lemma ends_deal_to_player P s : ends (after P s) (deal_to_player s).
Proof.
  destruct s as [p g].
  destruct (decide (deck_size g = 0%nat)) as [Hz | Hnz].
  - rewrite deal_to_player_empty by done. apply after_refl.
  - unfold deck_size in Hnz.
    destruct (cards (deck g)) as [| c rest _] eqn:Hd using rev_ind; [done |].
    rewrite (deal_to_player_snoc p g rest c Hd). simpl.
    split; [done |]. exists []. by rewrite app_nil_r.
Qed.

Lemma ends_show_hand (P : Msg -> Prop) s :
  (forall m, hit_or_stand m = true -> P m) ->
  ends (after P s) (show_hand s).
Proof.
  intros HP. destruct s as [p g]. rewrite show_hand_eq. simpl.
  split; [done |]. exists [shown p]. split; [done |].
  apply Forall_singleton, HP. unfold shown. by destruct (is_dealer p).
Qed.

Lemma ends_from {A} P s s1 (r : result _ A) :
  after P s s1 -> ends (after P s1) r -> ends (after P s) r.
Proof.
  intros Hs. apply ends_mono. intros s'. by apply after_trans.
Qed.

Lemma bind_get {St B} (k : St -> M St B) (s : St) : (get ≫= k) s = k s s.
Proof. reflexivity. Qed.

Lemma bind_Ret {St A B} (m : M St A) (k : A -> M St B) s a s' :
  m s = Ret a s' -> (m ≫= k) s = k a s'.
Proof. intros Hm. unfold mbind, M_bind. by rewrite Hm. Qed.

Lemma bind_Raise {St A B} (m : M St A) (k : A -> M St B) s e s' :
  m s = Raise e s' -> (m ≫= k) s = Raise e s'.
Proof. intros Hm. unfold mbind, M_bind. by rewrite Hm. Qed.

Lemma input_eq_nil (pr : Prompt) (p : Player) (g : Game) :
  stdin g = [] ->
  in_game (input pr) (p, g) = Raise EOFError (p, printed (Prompted pr) g).
Proof.
  intros Hin. unfold in_game, input, print. unfold_monad. simpl.
  by rewrite Hin.
Qed.

Lemma input_eq_cons (pr : Prompt) (p : Player) (g : Game) line rest :
  stdin g = line :: rest ->
  in_game (input pr) (p, g)
  = Ret line (p, set_stdin rest (printed (Prompted pr) g)).
Proof.
  intros Hin. unfold in_game, input, print. unfold_monad. simpl.
  by rewrite Hin.
Qed.

Ltac after_chain :=
  repeat (eapply after_trans; [eassumption |]); apply after_refl.

Section Invariant.
Variable P : Msg -> Prop.
Hypothesis P_hit_or_stand : forall m, hit_or_stand m = true -> P m.

Lemma playable_after fuel s s' :
  after P s s' -> playable P fuel s -> playable P fuel s'.
Proof.
  intros [Hsuf _] [Hlen Hq]. split.
  - apply suffix_length in Hsuf. lia.
  - destruct Hq as [Hq | Hall]; [left | by right].
    destruct Hsuf as [used Hu]. rewrite Hu in Hq.
    by apply Forall_app in Hq as [_ ?].
Qed.

Lemma ends_play_split_hand turn (i : nat) (h : list Cards) s :
  (forall s', after P s s' -> ends (after P s') (turn s')) ->
  ends (after P s) (play_split_hand turn i h s).
Proof.
  intros Hturn. unfold play_split_hand. rewrite bind_get.
  apply ends_bind; [by apply ends_print, P_hit_or_stand |]. intros _ s1 H1.
  apply ends_bind; [by apply ends_in_player |]. intros _ s2 H2.
  apply ends_bind; [apply ends_deal_to_player |]. intros _ s3 H3.
  apply ends_bind; [by apply ends_show_hand |]. intros _ s4 H4.
  apply ends_bind.
  - apply Hturn. after_chain.
  - intros ok s5 H5. destruct ok; simpl.
    + apply after_refl.
    + by apply ends_print, P_hit_or_stand.
Qed.

Lemma ends_split_hand_with turn s :
  (forall s', after P s s' -> ends (after P s') (turn s')) ->
  ends (after P s) (split_hand_with turn s).
Proof.
  intros Hturn. unfold split_hand_with. rewrite bind_get.
  destruct (hand s.1) as [| c1 [| c2 [| c3 h]]]; try apply after_refl.
  apply ends_bind; [by apply ends_play_split_hand |]. intros _ s1 H1.
  apply ends_play_split_hand. intros s2 H2. apply Hturn. after_chain.
Qed.

Lemma ends_player_turn (fuel : nat) s :
  playable P fuel s -> ends (after P s) (player_turn fuel s).
Proof.
  revert s. induction fuel as [| fuel IH]; intros [p g] Hplay.
  { destruct Hplay as [Hlen _]. lia. }
  cbn [player_turn]. rewrite bind_get. cbn [fst snd].
  destruct (stdin g) as [| line rest] eqn:Hin.
  { rewrite (bind_Raise _ _ _ _ _ (input_eq_nil _ p g Hin)). simpl.
    split; [done |]. eexists [_]. split; [done |].
    by apply Forall_singleton, P_hit_or_stand. }
  rewrite (bind_Ret _ _ _ _ _ (input_eq_cons _ p g line rest Hin)).
  set (s1 := (p, set_stdin rest (printed (Prompted (AskAction (name p))) g))).
  assert (H1 : after P (p, g) s1).
  { split; simpl.
    - rewrite Hin. by apply suffix_cons_r.
    - eexists [_]. split; [done |]. by apply Forall_singleton, P_hit_or_stand. }
  assert (Hplay1 : playable P fuel s1).
  { destruct Hplay as [Hlen Hq]. simpl in *. rewrite Hin in *.
    split; simpl in *; [lia |].
    destruct Hq as [Hq | Hall]; [left | by right]. by inversion Hq. }
  assert (Hrec : forall s', after P s1 s' -> ends (after P s') (player_turn fuel s')).
  { intros s' Hs'. apply IH. by apply (playable_after fuel s1). }
  assert (Hloud : hit_or_stand_line line = false -> forall m, P m).
  { intros Hl. destruct Hplay as [_ [Hq | Hall]]; [| done]. simpl in Hq.
    rewrite Hin in Hq. inversion Hq; congruence. }
  apply (ends_from P _ s1); [done |]. clear H1.
  destruct (String.eqb (lower line) "d"
            && bool_decide (length (hand p) = 2%nat)) eqn:Hdouble.
  { assert (Hall : forall m, P m).
    { apply Hloud. apply andb_true_iff in Hdouble as [Hd _].
      unfold hit_or_stand_line. by rewrite Hd. }
    apply ends_try.
    - apply ends_bind; [apply ends_in_player |].
      { unfold s1; simpl.
        destruct (decide (current_bet p <= balance (money p))).
        - by rewrite place_bet_ok.
        - by rewrite place_bet_fail by lia. }
      intros _ s2 H2. apply ends_bind; [by apply ends_print |].
      intros _ s3 H3. apply ends_bind; [apply ends_deal_to_player |].
      intros _ s4 H4. apply ends_bind; [by apply ends_show_hand |].
      intros _ s5 H5. apply after_refl.
    - intros msg s2 H2. apply ends_bind; [by apply ends_print |].
      intros _ s3 H3. apply Hrec. after_chain. }
  destruct (String.eqb (lower line) "sp"
            && bool_decide (length (hand p) = 2%nat)
            && same_rank (hand p)) eqn:Hsplit.
  { assert (Hall : forall m, P m).
    { apply Hloud. apply andb_true_iff in Hsplit as [Hsp _].
      apply andb_true_iff in Hsp as [Hsp _].
      unfold hit_or_stand_line. rewrite Hsp. by rewrite andb_false_r. }
    apply ends_bind; [by apply ends_print |]. intros _ s2 H2.
    apply ends_bind.
    - apply ends_split_hand_with. intros s3 H3. apply Hrec. after_chain.
    - intros _ s3 H3. apply after_refl. }
  destruct (String.eqb (lower line) "h").
  { apply ends_bind; [apply ends_deal_to_player |]. intros _ s2 H2.
    apply ends_bind; [by apply ends_show_hand |]. intros _ s3 H3.
    rewrite bind_get. destruct (bool_decide (total s3.1 > 21)).
    - apply ends_bind; [by apply ends_print, P_hit_or_stand |].
      intros _ s4 H4. apply after_refl.
    - apply Hrec. after_chain. }
  destruct (String.eqb (lower line) "s").
  { apply ends_bind; [by apply ends_print, P_hit_or_stand |].
    intros _ s2 H2. apply after_refl. }
  apply ends_bind; [by apply ends_print, P_hit_or_stand |].
  intros _ s2 H2. apply Hrec. after_chain.
Qed.

End Invariant.

(** What [play_split_hand] does before it hands over to the turn. *)
Lemma play_split_hand_start turn (i : nat) (c0 c : Cards)
    (p : Player) (g : Game) (rest : list Cards) :
  cards (deck g) = (rest ++ [c])%list ->
  play_split_hand turn i [c0] (p, g)
  = (ok ← turn;
     if negb ok then in_game (print (HandBusted i (name p))) else mret tt)
      (with_card c (set_hand [c0] p),
       printed (shown (with_card c (set_hand [c0] p)))
         (set_deck (mkDeck rest (original_cards (deck g)))
            (printed (PlayingHand i (name p)) g))).
Proof.
  intros Hd. unfold play_split_hand. rewrite bind_get.
  unfold in_game at 1, in_player at 1, print at 1. unfold_monad. simpl.
  erewrite deal_to_player_snoc by (simpl; exact Hd).
  by rewrite show_hand_eq.
Qed.

Lemma split_hand_eq (fuel : nat) (p : Player) (g : Game) (c1 c2 : Cards) :
  hand p = [c1; c2] ->
  split_hand fuel (p, g)
  = (play_split_hand (player_turn fuel) 1 [c1];;
     play_split_hand (player_turn fuel) 2 [c2]) (p, g).
Proof.
  intros Hh. unfold split_hand, split_hand_with. rewrite bind_get. simpl.
  by rewrite Hh.
Qed.

Lemma split_hand_can_double (fuel : nat) (p : Player) (g : Game)
    (c1 c2 ca cb : Cards) (line : string) (more : list string)
    (rest : list Cards) :
  hand p = [c1; c2] ->
  stdin g = line :: more ->
  lower line = "d" ->
  current_bet p <= balance (money p) ->
  cards (deck g) = (rest ++ [cb; ca])%list ->
  exists p1 g1,
    split_hand (S fuel) (p, g)
    = play_split_hand (player_turn (S fuel)) 2 [c2] (p1, g1)
    /\ In (DoublesDown (name p)) (stdout g1)
    /\ hand p1 = [c1; ca; cb]
    /\ current_bet p1 = current_bet p
    /\ balance (money p1) = balance (money p) - current_bet p.
Proof.
  intros Hh Hin Hd Hbal Hdeck.
  rewrite (split_hand_eq _ _ _ c1 c2 Hh).
  set (p0 := with_card ca (set_hand [c1] p)).
  set (g0 := printed (shown p0)
               (set_deck (mkDeck (rest ++ [cb]) (original_cards (deck g)))
                  (printed (PlayingHand 1 (name p)) g))).
  destruct (player_turn_double fuel p0 g0 line more rest cb)
    as (g1 & Hturn & _ & Hout); try done.
  exists (with_card cb
            (set_current_bet (current_bet p0)
               (set_money (mkMoney (balance (money p0) - current_bet p0))
                  p0))), g1.
  split; [| split; [exact Hout | done]].
  erewrite (bind_Ret _ _ _ tt); [reflexivity |].
  rewrite (play_split_hand_start _ 1 c1 ca p g (rest ++ [cb])).
  - fold p0 g0. by rewrite (bind_Ret _ _ _ _ _ Hturn).
  - rewrite Hdeck. by rewrite <- app_assoc.
Qed.

Lemma split_hand_can_resplit (fuel : nat) (p : Player) (g : Game)
    (c1 c2 ca : Cards) (line : string) (more : list string)
    (rest : list Cards) :
  hand p = [c1; c2] ->
  stdin g = line :: more ->
  lower line = "sp" ->
  cards (deck g) = (rest ++ [ca])%list ->
  rank c1 = rank ca ->
  exists p1 g1,
    split_hand (S fuel) (p, g)
    = (split_hand fuel;;
       play_split_hand (player_turn (S fuel)) 2 [c2]) (p1, g1)
    /\ In (Splits (name p)) (stdout g1)
    /\ hand p1 = [c1; ca].
Proof.
  intros Hh Hin Hsp Hdeck Hrank.
  rewrite (split_hand_eq _ _ _ c1 c2 Hh).
  set (p0 := with_card ca (set_hand [c1] p)).
  set (g0 := printed (shown p0)
               (set_deck (mkDeck rest (original_cards (deck g)))
                  (printed (PlayingHand 1 (name p)) g))).
  exists p0, (printed (Splits (name p))
                (set_stdin more (printed (Prompted (AskAction (name p))) g0))).
  split; [| split; [| done]].
  - unfold mbind at 1, M_bind at 1.
    rewrite (play_split_hand_start _ 1 c1 ca p g rest Hdeck). fold p0 g0.
    assert (Hturn : player_turn (S fuel) (p0, g0)
              = (in_game (print (Splits (name p)));;
                 split_hand fuel;; mret true)
                  (p0, set_stdin more
                         (printed (Prompted (AskAction (name p))) g0))).
    { cbn [player_turn]. rewrite bind_get.
      rewrite (bind_Ret _ _ _ _ _ (input_eq_cons _ p0 g0 line more Hin)).
      cbn [fst]. rewrite Hsp. simpl.
      by rewrite (proj2 (String.eqb_eq _ _) Hrank). }
    unfold mbind at 1, M_bind at 1. rewrite Hturn.
    unfold in_game at 1, print at 1. unfold_monad. simpl.
    by destruct (split_hand fuel _) as [[] ? | |].
  - simpl. rewrite !in_app_iff. simpl. tauto.
Qed.

(** C8: the two hands of a split are played by the very procedure that
    plays any hand.  As long as no line still to be read asks to double
    down or to split, they go through Hit and Stand transitions only (and
    the turn ends once all lines are read); but a split hand that is asked
    to double down does so, and a split hand that is a pair and is asked
    to split is split again. *)
Theorem split_hand_plays_ordinary_turns
    (fuel : nat) (p : Player) (g : Game) :
  (Forall (fun line => hit_or_stand_line line = true) (stdin g) ->
   (length (stdin g) < fuel)%nat ->
   match split_hand fuel (p, g) with
   | Ret _ s' | Raise _ s' =>
       exists new,
         stdout s'.2 = (stdout g ++ new)%list
         /\ forallb hit_or_stand new = true
   | Diverge => False
   end)
  /\ (forall c1 c2 ca cb line more rest,
        hand p = [c1; c2] ->
        stdin g = line :: more ->
        lower line = "d" ->
        current_bet p <= balance (money p) ->
        cards (deck g) = (rest ++ [cb; ca])%list ->
        exists p1 g1,
          split_hand (S fuel) (p, g)
          = play_split_hand (player_turn (S fuel)) 2 [c2] (p1, g1)
          /\ In (DoublesDown (name p)) (stdout g1)
          /\ hand p1 = [c1; ca; cb]
          /\ current_bet p1 = current_bet p
          /\ balance (money p1) = balance (money p) - current_bet p)
  /\ (forall c1 c2 ca line more rest,
        hand p = [c1; c2] ->
        stdin g = line :: more ->
        lower line = "sp" ->
        cards (deck g) = (rest ++ [ca])%list ->
        rank c1 = rank ca ->
        exists p1 g1,
          split_hand (S fuel) (p, g)
          = (split_hand fuel;;
             play_split_hand (player_turn (S fuel)) 2 [c2]) (p1, g1)
          /\ In (Splits (name p)) (stdout g1)
          /\ hand p1 = [c1; ca]).
Proof.
  split; [| split].
  - intros Hquiet Hlen.
    assert (Hends : ends (after (fun m => hit_or_stand m = true) (p, g))
                      (split_hand fuel (p, g))).
    { apply ends_split_hand_with; [done |]. intros s1 H1.
      apply ends_player_turn; [done |].
      apply (playable_after _ fuel (p, g)); [done |]. split; [done | by left]. }
    destruct (split_hand fuel (p, g)) as [a s' | e s' |]; simpl in *;
      [| | done].
    all: destruct Hends as [_ (new & Hout & Hnew)]; exists new;
      split; [done |]; by apply Forall_forallb.
  - intros c1 c2 ca cb line more rest. apply split_hand_can_double.
  - intros c1 c2 ca line more rest. apply split_hand_can_resplit.
Qed.

End Turns.


Lemma split_hand_plays_ordinary_turns_witness :
  exists p' g',
    @split_hand reversing_runtime 4 (ann_with_eights, hit_stand_table)
    = Ret tt (p', g')
    /\ forallb hit_or_stand (stdout g') = true.
Proof.
  pose proof (proj1 (split_hand_plays_ordinary_turns (H := reversing_runtime)
                       4 ann_with_eights hit_stand_table)) as Hturns.
  assert (Hrun : exists s',
             @split_hand reversing_runtime 4 (ann_with_eights, hit_stand_table)
             = Ret tt s')
    by (eexists; vm_compute; reflexivity).
  destruct Hrun as ([p' g'] & Hrun). rewrite Hrun in Hturns.
  exists p', g'. split; [exact Hrun |].
  destruct Hturns as (new & Hout & Hnew).
  - repeat constructor.
  - simpl. lia.
  - simpl in Hout. by rewrite Hout.
Defined.

(** After a split Ann is dealt a third eight and splits again, then
    doubles down on the first of the new hands. *)
Lemma split_hand_doubles_and_resplits :
  exists p' g',
    @split_hand reversing_runtime 5 (ann_with_eights, resplit_table)
    = Ret tt (p', g')
    /\ forallb hit_or_stand (stdout g') = false
    /\ In (Splits "Ann") (stdout g')
    /\ In (DoublesDown "Ann") (stdout g')
    /\ balance (money p') = balance (money ann_with_eights) - 10.
Proof.
  eexists _, _. split; [vm_compute; reflexivity |].
  split; [reflexivity |]. split; [simpl; tauto |].
  split; [simpl; tauto | reflexivity].
Qed.
